(** * Build configuration of tsrouter-setup (vite.config.ts)

    The repository's only program is the Vite configuration module.  It is
    embedded here as a value: the list of plugin factory calls with their
    options, and the alias table.  What the configuration means to the tools
    that read it is given by small models, each kept in its own module:

    - [RegExp]: the fragment of JavaScript regular expressions that the
      configured [routeFileIgnorePattern] is written in (literal characters,
      [.] and [|]), with the unanchored search of [String.prototype.match];
    - [Path]: [resolve] of node:path (POSIX flavour), with the process's
      working directory as an explicit input;
    - [Router] and [Alias]: the route generator and the alias rewriting, which
      are dependencies of the repository and are modelled from the spec. *)

From Stdlib Require Import List String Ascii Bool.
Import ListNotations.
Open Scope string_scope.
Open Scope bool_scope.

(** ** JavaScript string operations used by the models *)

Module Str.

(** [s.startsWith(pre)] *)
Definition startsWith (pre s : string) : bool := String.prefix pre s.

(** [s.endsWith(suf)] *)
Fixpoint endsWith (suf s : string) : bool :=
  String.eqb suf s ||
  match s with
  | EmptyString => false
  | String _ s' => endsWith suf s'
  end.

(** [s.includes(sub)] *)
Fixpoint includes (sub s : string) : bool :=
  String.prefix sub s ||
  match s with
  | EmptyString => false
  | String _ s' => includes sub s'
  end.

(** [s.split(sep)] for a one-character separator: never empty, and an
    empty piece for every leading, trailing or doubled separator. *)
Fixpoint split (sep : ascii) (s : string) : list string :=
  match s with
  | EmptyString => [EmptyString]
  | String c s' =>
      if Ascii.eqb c sep then EmptyString :: split sep s'
      else match split sep s' with
           | piece :: pieces => String c piece :: pieces
           | [] => [String c EmptyString]
           end
  end.

(** [s.slice(n)] *)
Fixpoint slice (n : nat) (s : string) : string :=
  match n, s with
  | O, _ => s
  | S _, EmptyString => EmptyString
  | S n', String _ s' => slice n' s'
  end.

End Str.

(** ** JavaScript regular expressions: the fragment the pattern uses *)

Module RegExp.

(** A pattern character is [.] or an ordinary character. *)
Inductive atom : Type :=
| Dot
| Char (c : ascii).

(** An alternative is a sequence of atoms; a pattern is a [|]-separated
    list of alternatives. *)
Definition alternative := list atom.
Definition disjunction := list alternative.

(** The syntax characters of a pattern other than [.] and [|]; a pattern
    that uses one of them is outside the fragment. *)
Definition isSyntaxCharacter (c : ascii) : bool :=
  existsb (Ascii.eqb c)
    ["^"; "$"; "\"; "*"; "+"; "?"; "("; ")"; "["; "]"; "{"; "}"]%char.

(** [new RegExp(source)], on the fragment; [None] outside of it. *)
Fixpoint compile (source : string) : option disjunction :=
  match source with
  | EmptyString => Some [[]]
  | String c rest =>
      match compile rest with
      | Some (alt :: alts) =>
          if Ascii.eqb c "|" then Some ([] :: alt :: alts)
          else if Ascii.eqb c "." then Some ((Dot :: alt) :: alts)
          else if isSyntaxCharacter c then None
          else Some ((Char c :: alt) :: alts)
      | _ => None
      end
  end.

(** Line terminators, which [.] does not match (no [s] flag). *)
Definition isLineTerminator (c : ascii) : bool :=
  Ascii.eqb c "010" || Ascii.eqb c "013".

Definition matchAtom (a : atom) (c : ascii) : bool :=
  match a with
  | Dot => negb (isLineTerminator c)
  | Char d => Ascii.eqb c d
  end.

(** The alternative matches at the start of [s]. *)
Fixpoint matchHere (p : alternative) (s : string) : bool :=
  match p, s with
  | [], _ => true
  | _ :: _, EmptyString => false
  | a :: p', String c s' => matchAtom a c && matchHere p' s'
  end.

(** [s.match(r) !== null]: the search tries every start index from the
    left, and at each index the alternatives in order. *)
Fixpoint test (r : disjunction) (s : string) : bool :=
  existsb (fun p => matchHere p s) r ||
  match s with
  | EmptyString => false
  | String _ s' => test r s'
  end.

(** The strings an alternative denotes: same length, and every character
    accepted by the atom at its position. *)
Inductive Instance : alternative -> string -> Prop :=
| Instance_nil : Instance [] EmptyString
| Instance_cons a c p s :
    matchAtom a c = true -> Instance p s ->
    Instance (a :: p) (String c s).

(** The literal reading of an alternative's source text. *)
Fixpoint literal (s : string) : alternative :=
  match s with
  | EmptyString => []
  | String c s' => Char c :: literal s'
  end.

End RegExp.

(** ** node:path (POSIX) *)

Module Path.

(** [isAbsolute(path)] *)
Definition isAbsolute (path : string) : bool :=
  match path with
  | String "/" _ => true
  | _ => false
  end.

(** One segment of [normalizeString], on the stack of segments kept so
    far (most recent first). *)
Definition normalizeStep (allowAboveRoot : bool)
    (stack : list string) (segment : string) : list string :=
  if String.eqb segment "" || String.eqb segment "." then stack
  else if String.eqb segment ".." then
    match stack with
    | top :: below =>
        if String.eqb top ".."
        then (if allowAboveRoot then ".." :: stack else stack)
        else below
    | [] => if allowAboveRoot then [".."] else []
    end
  else segment :: stack.

Definition normalizeSegments (allowAboveRoot : bool)
    (segments : list string) : list string :=
  rev (fold_left (normalizeStep allowAboveRoot) segments []).

(** [normalizeString(path, allowAboveRoot, '/', isPosixPathSeparator)] *)
Definition normalizeString (path : string) (allowAboveRoot : bool) : string :=
  String.concat "/" (normalizeSegments allowAboveRoot (Str.split "/" path)).

(** The loop of [resolve]: the arguments from the last to the first, then
    the working directory, until the path built so far is absolute. *)
Fixpoint resolveLoop (cwd : string) (pathsFromLast : list string)
    (resolvedPath : string) : string * bool :=
  match pathsFromLast with
  | [] =>
      if String.eqb cwd "" then (resolvedPath, false)
      else (cwd ++ "/" ++ resolvedPath, isAbsolute cwd)
  | path :: earlier =>
      if String.eqb path "" then resolveLoop cwd earlier resolvedPath
      else if isAbsolute path then (path ++ "/" ++ resolvedPath, true)
      else resolveLoop cwd earlier (path ++ "/" ++ resolvedPath)
  end.

(** [resolve(...paths)], in a process whose working directory is [cwd]. *)
Definition resolve (cwd : string) (paths : list string) : string :=
  let (resolvedPath, resolvedAbsolute) := resolveLoop cwd (rev paths) "" in
  let normalized := normalizeString resolvedPath (negb resolvedAbsolute) in
  if resolvedAbsolute then "/" ++ normalized
  else if String.eqb normalized "" then "." else normalized.

End Path.

(** ** The configuration module *)

(** The runtime state a configuration module could consult. *)
Record Process : Type := {
  cwd : string;
  env : list (string * string)
}.

(** Options object passed to the router plugin. *)
Record RouterOptions : Type := {
  autoCodeSplitting : option bool;
  routeFileIgnorePattern : option string
}.

(** The plugin factory calls that appear in the configuration. *)
Inductive Plugin : Type :=
| TanStackRouterVite (options : RouterOptions)
| react
| tailwindcss.

Record ResolveOptions : Type := {
  alias : list (string * string)
}.

Record UserConfig : Type := {
  plugins : list Plugin;
  resolve : ResolveOptions
}.

(** [defineConfig] of vite returns its argument. *)
Definition defineConfig (config : UserConfig) : UserConfig := config.

(** The default export of vite.config.ts, evaluated in process [proc] with
    the module's directory [__dirname]. *)
Definition viteConfig (proc : Process) (__dirname : string) : UserConfig :=
  defineConfig {|
    plugins := [
      TanStackRouterVite {|
        autoCodeSplitting := Some true;
        routeFileIgnorePattern :=
          Some ".stories.tsx|.model.ts|.test.ts|__tests__"
      |};
      react;
      tailwindcss
    ];
    resolve := {|
      alias := [("@", Path.resolve (cwd proc) [__dirname; "./src"])]
    |}
  |}.

(** ** What the router plugin is given *)

(** The options of the first router plugin call in the plugin list. *)
Fixpoint routerOptions (ps : list Plugin) : option RouterOptions :=
  match ps with
  | [] => None
  | TanStackRouterVite options :: _ => Some options
  | _ :: rest => routerOptions rest
  end.

(** The pattern text the router plugin receives. *)
Definition ignorePattern (config : UserConfig) : option string :=
  match routerOptions (plugins config) with
  | Some options => routeFileIgnorePattern options
  | None => None
  end.

(** The compiled pattern: [Some None] when no pattern is configured, [None]
    when the configured text is outside the modelled fragment. *)
Definition ignoreRegExp (config : UserConfig)
  : option (option RegExp.disjunction) :=
  match ignorePattern config with
  | None => Some None
  | Some source =>
      match RegExp.compile source with
      | Some r => Some (Some r)
      | None => None
      end
  end.

(** A name is ignored when the compiled pattern finds a match in it. *)
Definition ignoredBy (r : option RegExp.disjunction) (name : string) : bool :=
  match r with
  | Some r => RegExp.test r name
  | None => false
  end.

(** ** Route generation *)

Module Router.

(** A file under the routes directory: the directories from the routes
    directory down to it, and its own name. *)
Record RouteFile : Type := {
  directory : list string;
  name : string
}.

(** A route entry records the file it was generated from. *)
Record RouteEntry : Type := {
  source : RouteFile
}.

(** Modelled from the spec: the route generator of the router plugin,
    which is a dependency and not part of the repository's sources.  The
    spec's guarantee (4.1) is that files matching the exclusion pattern are
    omitted from route-table generation and all other files under the routes
    directory are treated as route definitions. *)
Definition generate (r : option RegExp.disjunction)
    (files : list RouteFile) : list RouteEntry :=
  map (fun f => {| source := f |})
      (filter (fun f => negb (ignoredBy r (name f))) files).

(** The route table generated for a configuration; [None] when the
    configured pattern is outside the modelled fragment. *)
Definition routeTable (config : UserConfig) (files : list RouteFile)
  : option (list RouteEntry) :=
  match ignoreRegExp config with
  | Some r => Some (generate r files)
  | None => None
  end.

End Router.

(** ** Alias rewriting *)

Module Alias.

(** Modelled from the spec: the bundler's use of the alias table during
    module resolution, which is a dependency and not part of the
    repository's sources.  The spec (4.1, 8) has a table from logical
    prefix to directory, and a reference using a declared prefix resolves to
    the declared directory.  A reference uses the prefix [find] when it is
    [find] itself or continues it with a [/]; the prefix is replaced by the
    directory and the rest of the reference is kept. *)
Definition uses (find importee : string) : bool :=
  String.eqb importee find || Str.startsWith (find ++ "/") importee.

(** Modelled from the spec: the alias step itself.  The first entry whose
    prefix the reference uses replaces the prefix by its directory. *)
Fixpoint rewrite (table : list (string * string)) (importee : string)
  : option string :=
  match table with
  | [] => None
  | (find, replacement) :: rest =>
      if uses find importee
      then Some (replacement ++ Str.slice (String.length find) importee)
      else rewrite rest importee
  end.

(** Modelled from the spec: the file path a reference resolves to, which
    the spec (8) compares with the declared directory.  The rewritten
    reference is a path; as the bundler does, it is brought to normal form
    the way [resolve] does, so that parent-directory segments take effect.
    Probing for an extension or an index file is left out. *)
Definition resolveImport (cwd : string) (table : list (string * string))
    (importee : string) : option string :=
  match rewrite table importee with
  | Some path => Some (Path.resolve cwd [path])
  | None => None
  end.

(** [path] is [dir] itself or lies below it, both in normal form. *)
Definition within (dir path : string) : bool :=
  String.eqb path dir || Str.startsWith (dir ++ "/") path.

(** What follows the prefix climbs out of the directory it starts in:
    normalized as a relative path, it still has a parent-directory
    segment. *)
Definition escapes (find importee : string) : bool :=
  existsb (String.eqb "..")
    (Path.normalizeSegments true
       (Str.split "/" (Str.slice (String.length find) importee))).

End Alias.

(** ** The spec's reading of the exclusion pattern *)

(** Follows the spec's words: a pipe-separated list of suffix patterns. *)
Definition suffixPatterns (pattern : string) : list string :=
  Str.split "|" pattern.

(** Follows the spec's words: a name is of a non-routable class when it ends
    in one of the listed markers. *)
Definition endsInMarker (pattern name : string) : bool :=
  existsb (fun suffix => Str.endsWith suffix name) (suffixPatterns pattern).

(** The pattern text as written in the configuration. *)
Definition configuredPattern : string :=
  ".stories.tsx|.model.ts|.test.ts|__tests__".

(** A name matches a pattern text when the compiled pattern finds a match
    in it. *)
Definition matchesPattern (pattern name : string) : bool :=
  match RegExp.compile pattern with
  | Some r => RegExp.test r name
  | None => false
  end.

(** The alternatives of the configured pattern, dots read as wildcards. *)
Definition configuredAlternatives : RegExp.disjunction :=
  [ RegExp.Dot :: RegExp.literal "stories" ++ RegExp.Dot :: RegExp.literal "tsx";
    RegExp.Dot :: RegExp.literal "model" ++ RegExp.Dot :: RegExp.literal "ts";
    RegExp.Dot :: RegExp.literal "test" ++ RegExp.Dot :: RegExp.literal "ts";
    RegExp.literal "__tests__" ].

(** A character a dot accepts: any but a line terminator. *)
Definition wildcard (c : ascii) : Prop := RegExp.isLineTerminator c = false.

(** One of the listed markers occurs somewhere in the name. *)
Definition containsMarker (pattern name : string) : bool :=
  existsb (fun marker => Str.includes marker name) (suffixPatterns pattern).

(** The names of the spec's non-routable classes, read generously: a name
    ending in one of the listed markers, or a private folder as the
    repository's rules file names them (dash prefix, as in -components). *)
Definition nonRoutableClass (name : string) : bool :=
  endsInMarker configuredPattern name || Str.startsWith "-" name.

(** ** Sample inputs *)

(** Two processes that differ in working directory and environment. *)
Definition buildProcess : Process :=
  {| cwd := "/work"; env := [("NODE_ENV", "production")] |}.

Definition shellProcess : Process :=
  {| cwd := "/tmp"; env := [] |}.

(** The page and its view model of the rules file's example. *)
Definition pageFile : Router.RouteFile :=
  {| Router.directory := ["hoge"]; Router.name := "route.tsx" |}.

Definition viewModelFile : Router.RouteFile :=
  {| Router.directory := ["hoge"]; Router.name := "route.model.ts" |}.

(** ** Normal form of a resolved path *)

(** A segment holds no separator. *)
Definition slashFree (segment : string) : bool :=
  negb (Str.includes "/" segment).

(** A segment that [normalizeString] keeps: not empty, not the current
    directory, no separator inside. *)
Definition properSegment (segment : string) : bool :=
  negb (String.eqb segment "") && negb (String.eqb segment ".") &&
  slashFree segment.

(** A kept segment that is not the parent directory either. *)
Definition cleanSegment (segment : string) : bool :=
  properSegment segment && negb (String.eqb segment "..").

(** * Properties *)

(** ** Strings *)

Lemma append_assoc (a b c : string) : (a ++ b) ++ c = a ++ (b ++ c).
Proof.
  induction a as [|x a IH]; simpl; [reflexivity | now rewrite IH].
Qed.

Lemma append_empty_r (a : string) : a ++ "" = a.
Proof.
  induction a as [|x a IH]; simpl; [reflexivity | now rewrite IH].
Qed.

Lemma prefix_append (a s : string) :
  String.prefix a s = true <-> exists post, s = a ++ post.
Proof.
  revert s; induction a as [|x a IH]; intros s.
  - split; [intros _; exists s; reflexivity | intros _; now destruct s].
  - destruct s as [|y s]; simpl.
    + split; [discriminate | intros [post H]; discriminate].
    + destruct (ascii_dec x y) as [->|Hne].
      * rewrite IH. split; intros [post H]; exists post; congruence.
      * split; [discriminate | intros [post H]; congruence].
Qed.

Lemma endsWith_cons (suf : string) (y : ascii) (s : string) :
  Str.endsWith suf (String y s) =
  String.eqb suf (String y s) || Str.endsWith suf s.
Proof. reflexivity. Qed.

Lemma endsWith_append (suf s : string) :
  Str.endsWith suf s = true <-> exists pre, s = pre ++ suf.
Proof.
  induction s as [|y s IH].
  - cbn [Str.endsWith]. rewrite orb_false_r, String.eqb_eq. split.
    + intros ->. now exists "".
    + intros [pre H]. destruct pre; simpl in H; [now subst | discriminate].
  - rewrite endsWith_cons, orb_true_iff, String.eqb_eq, IH. split.
    + intros [-> | [pre ->]]; [now exists "" | now exists (String y pre)].
    + intros [pre H]. destruct pre as [|x pre]; simpl in H.
      * now left.
      * right. exists pre. congruence.
Qed.

Lemma includes_cons (sub : string) (y : ascii) (s : string) :
  Str.includes sub (String y s) =
  String.prefix sub (String y s) || Str.includes sub s.
Proof. reflexivity. Qed.

Lemma includes_append (sub s : string) :
  Str.includes sub s = true <-> exists pre post, s = pre ++ sub ++ post.
Proof.
  induction s as [|y s IH].
  - cbn [Str.includes]. rewrite orb_false_r, prefix_append. split.
    + intros [post H]. now exists "", post.
    + intros [pre [post H]]. destruct pre; simpl in H; [|discriminate].
      now exists post.
  - rewrite includes_cons, orb_true_iff, IH, prefix_append. split.
    + intros [[post H] | [pre [post ->]]].
      * now exists "", post.
      * now exists (String y pre), post.
    + intros [pre [post H]]. destruct pre as [|x pre]; simpl in H.
      * left. now exists post.
      * right. exists pre, post. congruence.
Qed.

Lemma split_nonempty (sep : ascii) (s : string) : Str.split sep s <> [].
Proof.
  destruct s as [|c s]; simpl; [discriminate|].
  destruct (Ascii.eqb c sep); [discriminate|].
  destruct (Str.split sep s); discriminate.
Qed.

Lemma split_append (sep : ascii) (a b : string) :
  Str.split sep (a ++ String sep b) =
  (Str.split sep a ++ Str.split sep b)%list.
Proof.
  induction a as [|c a IH]; simpl.
  - now rewrite Ascii.eqb_refl.
  - destruct (Ascii.eqb c sep); [now rewrite IH|].
    rewrite IH. pose proof (split_nonempty sep a) as Hne.
    destruct (Str.split sep a); [contradiction | reflexivity].
Qed.

Lemma slice_length_append (a b : string) :
  Str.slice (String.length a) (a ++ b) = b.
Proof.
  induction a as [|x a IH]; simpl; [now destruct b | exact IH].
Qed.

(** ** Regular expressions: the search finds exactly the instances *)

Lemma matchHere_Instance (p : RegExp.alternative) (s : string) :
  RegExp.matchHere p s = true <->
  exists mid post, s = mid ++ post /\ RegExp.Instance p mid.
Proof.
  revert s; induction p as [|a p IH]; intros s.
  - split; [|reflexivity]. intros _. exists "", s. split; [reflexivity|].
    constructor.
  - destruct s as [|c s]; simpl.
    + split; [discriminate|]. intros [mid [post [H Hi]]].
      inversion Hi; subst. discriminate.
    + rewrite andb_true_iff, IH. split.
      * intros [Ha [mid [post [-> Hi]]]]. exists (String c mid), post.
        split; [reflexivity | now constructor].
      * intros [mid [post [H Hi]]]. inversion Hi; subst.
        simpl in H. inversion H; subst. split; [assumption|].
        now exists s0, post.
Qed.

Lemma test_cons (r : RegExp.disjunction) (c : ascii) (s : string) :
  RegExp.test r (String c s) =
  existsb (fun p => RegExp.matchHere p (String c s)) r || RegExp.test r s.
Proof. reflexivity. Qed.

Lemma test_Instance (r : RegExp.disjunction) (s : string) :
  RegExp.test r s = true <->
  exists p pre mid post,
    In p r /\ s = pre ++ mid ++ post /\ RegExp.Instance p mid.
Proof.
  induction s as [|c s IH].
  - cbn [RegExp.test]. rewrite orb_false_r, existsb_exists. split.
    + intros [p [Hin Hm]]. apply matchHere_Instance in Hm.
      destruct Hm as [mid [post [H Hi]]]. now exists p, "", mid, post.
    + intros [p [pre [mid [post [Hin [H Hi]]]]]].
      destruct pre; [|discriminate]. exists p. split; [assumption|].
      apply matchHere_Instance. now exists mid, post.
  - rewrite test_cons, orb_true_iff, existsb_exists, IH. split.
    + intros [[p [Hin Hm]] | [p [pre [mid [post [Hin [-> Hi]]]]]]].
      * apply matchHere_Instance in Hm.
        destruct Hm as [mid [post [H Hi]]]. now exists p, "", mid, post.
      * now exists p, (String c pre), mid, post.
    + intros [p [pre [mid [post [Hin [H Hi]]]]]].
      destruct pre as [|x pre]; simpl in H.
      * left. exists p. split; [assumption|].
        apply matchHere_Instance. now exists mid, post.
      * right. exists p, pre, mid, post. repeat split; congruence.
Qed.

Lemma Instance_literal_app (s : string) (q : RegExp.alternative) (mid : string) :
  RegExp.Instance (RegExp.literal s ++ q)%list mid <->
  exists rest, mid = s ++ rest /\ RegExp.Instance q rest.
Proof.
  revert mid; induction s as [|c s IH]; intros mid; simpl.
  - split; [intros H; now exists mid | now intros [rest [-> H]]].
  - split.
    + intros H. inversion H as [|a c' p s' Ha Hi]; subst.
      apply IH in Hi. destruct Hi as [rest [-> Hq]].
      simpl in Ha. apply Ascii.eqb_eq in Ha. subst. now exists rest.
    + intros [rest [-> Hq]]. constructor.
      * simpl. apply Ascii.eqb_refl.
      * apply IH. now exists rest.
Qed.

Lemma Instance_literal (s mid : string) :
  RegExp.Instance (RegExp.literal s) mid <-> mid = s.
Proof.
  rewrite <- (app_nil_r (RegExp.literal s)), Instance_literal_app. split.
  - intros [rest [-> H]]. inversion H. apply append_empty_r.
  - intros ->. exists "". split; [now rewrite append_empty_r | constructor].
Qed.

Lemma Instance_dotted (stem ext mid : string) :
  RegExp.Instance
    (RegExp.Dot :: RegExp.literal stem ++ RegExp.Dot :: RegExp.literal ext)%list
    mid
  <-> exists c1 c2,
        wildcard c1 /\ wildcard c2 /\ mid = String c1 (stem ++ String c2 ext).
Proof.
  unfold wildcard. split.
  - intros H. inversion H as [|a c1 p s1 Ha Hi]; subst.
    apply Instance_literal_app in Hi. destruct Hi as [rest [-> Hr]].
    inversion Hr as [|a c2 p s2 Hb Hj]; subst.
    apply Instance_literal in Hj. subst.
    simpl in Ha, Hb. apply negb_true_iff in Ha, Hb. now exists c1, c2.
  - intros [c1 [c2 [H1 [H2 ->]]]]. constructor.
    + simpl. now rewrite H1.
    + apply Instance_literal_app. exists (String c2 ext). split; [reflexivity|].
      constructor; [simpl; now rewrite H2 | now apply Instance_literal].
Qed.

Lemma compile_configuredPattern :
  RegExp.compile configuredPattern = Some configuredAlternatives.
Proof. reflexivity. Qed.

Lemma matchesPattern_configured (name : string) :
  matchesPattern configuredPattern name =
  RegExp.test configuredAlternatives name.
Proof. unfold matchesPattern. now rewrite compile_configuredPattern. Qed.

(** ** Paths: the alias target *)

Lemma isAbsolute_inv (path : string) :
  Path.isAbsolute path = true -> exists rest, path = String "/" rest.
Proof.
  destruct path as [|c rest]; [discriminate|].
  destruct (ascii_dec c "/") as [->|Hne]; [now exists rest|].
  destruct c as [[] [] [] [] [] [] [] []]; try discriminate.
  contradiction Hne; reflexivity.
Qed.

(** With an absolute module directory the loop stops at it: the working
    directory is never reached. *)
Lemma resolveLoop_dirname (cwd dirname : string) :
  Path.isAbsolute dirname = true ->
  Path.resolveLoop cwd (rev [dirname; "./src"]) "" =
  (dirname ++ "/./src/", true).
Proof.
  intros Habs. destruct (isAbsolute_inv _ Habs) as [rest ->].
  reflexivity.
Qed.

Lemma normalizeSegments_src (segments : list string) :
  Path.normalizeSegments false (segments ++ ["."; "src"; ""]) =
  (Path.normalizeSegments false segments ++ ["src"])%list.
Proof.
  unfold Path.normalizeSegments. now rewrite fold_left_app.
Qed.

(** The alias target is the normalized module directory followed by src. *)
Lemma resolve_dirname_src (cwd dirname : string) :
  Path.isAbsolute dirname = true ->
  Path.resolve cwd [dirname; "./src"] =
  "/" ++ String.concat "/"
           (Path.normalizeSegments false (Str.split "/" dirname) ++ ["src"]).
Proof.
  intros Habs. unfold Path.resolve.
  rewrite (resolveLoop_dirname cwd dirname Habs).
  cbn [negb]. unfold Path.normalizeString.
  change (dirname ++ "/./src/") with (dirname ++ String "/" "./src/").
  rewrite split_append.
  change (Str.split "/" "./src/") with ["."; "src"; ""].
  now rewrite normalizeSegments_src.
Qed.

(** ** The configuration *)

Lemma ignorePattern_viteConfig (proc : Process) (dirname : string) :
  ignorePattern (viteConfig proc dirname) = Some configuredPattern.
Proof. reflexivity. Qed.

Lemma ignoreRegExp_viteConfig (proc : Process) (dirname : string) :
  ignoreRegExp (viteConfig proc dirname) = Some (Some configuredAlternatives).
Proof. reflexivity. Qed.

Lemma generate_source (r : option RegExp.disjunction)
    (files : list Router.RouteFile) (e : Router.RouteEntry) :
  In e (Router.generate r files) <->
  In (Router.source e) files /\
  ignoredBy r (Router.name (Router.source e)) = false.
Proof.
  unfold Router.generate. rewrite in_map_iff. split.
  - intros [f [<- Hf]]. apply filter_In in Hf. destruct Hf as [Hin Hn].
    apply negb_true_iff in Hn. now split.
  - intros [Hin Hn]. exists (Router.source e). split; [now destruct e|].
    apply filter_In. split; [assumption | now apply negb_true_iff].
Qed.

(** Dash-prefixed private folders of the rules file are not what the
    pattern matches: neither the folder name nor a component in it. *)
Lemma private_folder_not_matched :
  matchesPattern configuredPattern "-components" = false /\
  matchesPattern configuredPattern "HogeForm.tsx" = false.
Proof. split; reflexivity. Qed.

(** A scoped package name starts with the same character but does not use
    the alias, while the imports of the rules file do. *)
Lemma scoped_package_not_rewritten (proc : Process) :
  let table := alias (resolve (viteConfig proc "/home/app")) in
  Alias.rewrite table "@tanstack/react-query" = None /\
  Alias.rewrite table "@/components/ui/Toast" =
    Some "/home/app/src/components/ui/Toast".
Proof. split; reflexivity. Qed.

(** In a process without an absolute anchor, [resolve] does consult the
    working directory. *)
Lemma resolve_relative_consults_cwd :
  Path.resolve "/work" ["./src"] = "/work/src" /\
  Path.resolve "/tmp" ["./src"] = "/tmp/src".
Proof. split; reflexivity. Qed.

(** A file whose name the pattern matches is the source of no entry of the
    route table, and the table is produced. *)
Lemma matched_name_has_no_entry (proc : Process) (dirname : string)
    (files : list Router.RouteFile) (f : Router.RouteFile) :
  matchesPattern configuredPattern (Router.name f) = true ->
  exists table,
    Router.routeTable (viteConfig proc dirname) files = Some table /\
    forall e, In e table -> Router.source e <> f.
Proof.
  intros Hm. unfold Router.routeTable.
  rewrite ignoreRegExp_viteConfig. eexists. split; [reflexivity|].
  intros e He Heq. apply generate_source in He. destruct He as [_ Hn].
  rewrite Heq in Hn. cbn [ignoredBy] in Hn.
  rewrite matchesPattern_configured in Hm. congruence.
Qed.

Lemma Instance_dotted_marker (stem ext : string) :
  RegExp.Instance
    (RegExp.Dot :: RegExp.literal stem ++ RegExp.Dot :: RegExp.literal ext)%list
    (String "." (stem ++ String "." ext)).
Proof.
  apply Instance_dotted. exists "."%char, "."%char. now repeat split.
Qed.

(** A name in which one of the four listed markers occurs is matched. *)
Lemma marker_inside_matched (name : string) :
  containsMarker configuredPattern name = true ->
  matchesPattern configuredPattern name = true.
Proof.
  unfold containsMarker.
  change (suffixPatterns configuredPattern)
    with [".stories.tsx"; ".model.ts"; ".test.ts"; "__tests__"].
  cbn [existsb]. rewrite !orb_true_iff, !includes_append.
  rewrite matchesPattern_configured, test_Instance.
  intros [[pre [post ->]] | [[pre [post ->]] | [[pre [post ->]]
          | [[pre [post ->]] | H]]]]; [| | | |discriminate].
  - eexists; exists pre, ".stories.tsx", post.
    split; [left; reflexivity | split; [reflexivity|]].
    apply (Instance_dotted_marker "stories" "tsx").
  - eexists; exists pre, ".model.ts", post.
    split; [right; left; reflexivity | split; [reflexivity|]].
    apply (Instance_dotted_marker "model" "ts").
  - eexists; exists pre, ".test.ts", post.
    split; [right; right; left; reflexivity | split; [reflexivity|]].
    apply (Instance_dotted_marker "test" "ts").
  - eexists; exists pre, "__tests__", post.
    split; [right; right; right; left; reflexivity | split; [reflexivity|]].
    now apply Instance_literal.
Qed.

Lemma endsWith_includes (suffix name : string) :
  Str.endsWith suffix name = true -> Str.includes suffix name = true.
Proof.
  rewrite endsWith_append, includes_append. intros [pre ->].
  exists pre, "". now rewrite append_empty_r.
Qed.

Lemma endsInMarker_containsMarker (pattern name : string) :
  endsInMarker pattern name = true -> containsMarker pattern name = true.
Proof.
  unfold endsInMarker, containsMarker.
  induction (suffixPatterns pattern) as [|marker markers IH];
    [discriminate|].
  cbn [existsb]. rewrite !orb_true_iff. intros [H | H].
  - left. now apply endsWith_includes.
  - right. now apply IH.
Qed.

(** A name ending in one of the four listed markers is matched. *)
Lemma marker_suffix_matched (name : string) :
  endsInMarker configuredPattern name = true ->
  matchesPattern configuredPattern name = true.
Proof.
  intros H. now apply marker_inside_matched, endsInMarker_containsMarker.
Qed.

Lemma dotted_contains_stem (stem ext pre mid post : string) :
  RegExp.Instance
    (RegExp.Dot :: RegExp.literal stem ++ RegExp.Dot :: RegExp.literal ext)%list
    mid ->
  Str.includes stem (pre ++ mid ++ post) = true.
Proof.
  intros H. apply Instance_dotted in H.
  destruct H as [c1 [c2 [_ [_ ->]]]]. apply includes_append.
  exists (pre ++ String c1 ""), (String c2 ext ++ post).
  rewrite !append_assoc. cbn [String.append]. now rewrite !append_assoc.
Qed.

(** A matched name holds one of the words the alternatives are built on. *)
Lemma matched_contains_stem (name : string) :
  matchesPattern configuredPattern name = true ->
  Str.includes "stories" name || Str.includes "model" name ||
  Str.includes "test" name = true.
Proof.
  rewrite matchesPattern_configured, test_Instance.
  intros [p [pre [mid [post [Hin [-> Hi]]]]]].
  rewrite !orb_true_iff.
  destruct Hin as [<- | [<- | [<- | [<- | []]]]].
  - left; left. now apply dotted_contains_stem with (ext := "tsx").
  - left; right. now apply dotted_contains_stem with (ext := "ts").
  - right. now apply dotted_contains_stem with (ext := "ts").
  - right. apply Instance_literal in Hi. subst. apply includes_append.
    exists (pre ++ "__"), ("s__" ++ post). now rewrite !append_assoc.
Qed.

(** ** The claims *)

(** C1. For every file under the routes directory whose name matches the
    configured exclusion pattern .stories.tsx|.model.ts|.test.ts|__tests__,
    the route generator produces no route entry for that file: the route
    table is produced and none of its entries has the file as its source. *)
Theorem ignored_file_has_no_route (proc : Process) (dirname : string)
    (files : list Router.RouteFile) (f : Router.RouteFile) :
  matchesPattern configuredPattern (Router.name f) = true ->
  exists table,
    Router.routeTable (viteConfig proc dirname) files = Some table /\
    forall e, In e table -> Router.source e <> f.
Proof. apply matched_name_has_no_entry. Qed.

Lemma ignored_file_has_no_route_witness :
  matchesPattern configuredPattern (Router.name viewModelFile) = true /\
  exists table,
    Router.routeTable (viteConfig buildProcess "/home/app")
      [pageFile; viewModelFile] = Some table /\
    forall e, In e table -> Router.source e <> viewModelFile.
Proof.
  split; [reflexivity|].
  apply (ignored_file_has_no_route buildProcess "/home/app"
           [pageFile; viewModelFile] viewModelFile).
  reflexivity.
Defined.

(** C3, as stated, fails at route.model.ts.bak: the pattern matches that
    name, which ends in none of the listed markers and is not a private
    folder. *)
Lemma exclusion_classes_counterexample :
  ~ (matchesPattern configuredPattern "route.model.ts.bak" = true <->
     nonRoutableClass "route.model.ts.bak" = true).
Proof.
  intros [H _]. specialize (H eq_refl). discriminate H.
Qed.

(** C3, amended.  The configured exclusion pattern is a pipe-separated list
    of four patterns, .stories.tsx, .model.ts, .test.ts and __tests__, that
    are searched anywhere in a name and not only at its end.  Every name in
    which one of the four occurs is matched, and so is every name that ends
    in one of them.  A name is matched only if it holds one of the words
    stories, model or test.  The dash-prefixed private folder name
    -components is not matched. *)
Theorem exclusion_pattern_classes (name : string) :
  suffixPatterns configuredPattern =
    [".stories.tsx"; ".model.ts"; ".test.ts"; "__tests__"] /\
  (containsMarker configuredPattern name = true ->
     matchesPattern configuredPattern name = true) /\
  (endsInMarker configuredPattern name = true ->
     matchesPattern configuredPattern name = true) /\
  (matchesPattern configuredPattern name = true ->
     Str.includes "stories" name || Str.includes "model" name ||
     Str.includes "test" name = true) /\
  matchesPattern configuredPattern "-components" = false.
Proof.
  split; [reflexivity|]. split; [apply marker_inside_matched|].
  split; [apply marker_suffix_matched|].
  split; [apply matched_contains_stem | reflexivity].
Qed.

Lemma exclusion_pattern_classes_witness :
  (containsMarker configuredPattern "route.model.ts.bak" = true /\
   matchesPattern configuredPattern "route.model.ts.bak" = true) /\
  (endsInMarker configuredPattern "route.model.ts" = true /\
   matchesPattern configuredPattern "route.model.ts" = true) /\
  (matchesPattern configuredPattern "Button.stories.tsx" = true /\
   Str.includes "stories" "Button.stories.tsx" ||
   Str.includes "model" "Button.stories.tsx" ||
   Str.includes "test" "Button.stories.tsx" = true).
Proof.
  split; [|split]; (split; [reflexivity|]).
  - apply (proj1 (proj2 (exclusion_pattern_classes "route.model.ts.bak"))).
    reflexivity.
  - apply (proj1 (proj2 (proj2
             (exclusion_pattern_classes "route.model.ts")))).
    reflexivity.
  - apply (proj1 (proj2 (proj2 (proj2
             (exclusion_pattern_classes "Button.stories.tsx"))))).
    reflexivity.
Defined.

(** C4. The configuration registers exactly three plugins, in this order:
    the router code-generation plugin (TanStackRouterVite), the UI-framework
    compiler plugin (react), the CSS utility plugin (tailwindcss). *)
Theorem plugins_in_list_order (proc : Process) (dirname : string) :
  List.length (plugins (viteConfig proc dirname)) = 3 /\
  exists options,
    plugins (viteConfig proc dirname) =
    [TanStackRouterVite options; react; tailwindcss].
Proof.
  split; [reflexivity|]. eexists. reflexivity.
Qed.

(** C7. The exported configuration is deterministic and reads no
    environment variable or other runtime state: two evaluations of the
    configuration module with the same module directory, in any two
    processes, give the same configuration. *)
Theorem config_is_deterministic (p1 p2 : Process) (dirname : string) :
  Path.isAbsolute dirname = true ->
  viteConfig p1 dirname = viteConfig p2 dirname.
Proof.
  intros Habs. unfold viteConfig.
  now rewrite !(resolve_dirname_src _ dirname Habs).
Qed.

Lemma config_is_deterministic_witness :
  Path.isAbsolute "/home/app" = true /\
  viteConfig buildProcess "/home/app" = viteConfig shellProcess "/home/app".
Proof.
  split; [reflexivity|].
  apply (config_is_deterministic buildProcess shellProcess "/home/app").
  reflexivity.
Defined.

(** C8. The router plugin is configured with automatic code splitting
    enabled: autoCodeSplitting is set to true. *)
Theorem auto_code_splitting_enabled (proc : Process) (dirname : string) :
  exists options,
    routerOptions (plugins (viteConfig proc dirname)) = Some options /\
    autoCodeSplitting options = Some true.
Proof.
  eexists. split; reflexivity.
Qed.

(** C9. The target of the @ alias is resolve(__dirname, './src'): an
    absolute path computed from the configuration file's own directory (its
    normalized segments followed by src), so the alias table is the same
    whatever the working directory of the process. *)
Theorem alias_target_ignores_cwd (p1 p2 : Process) (dirname : string) :
  Path.isAbsolute dirname = true ->
  let target := Path.resolve (cwd p1) [dirname; "./src"] in
  alias (resolve (viteConfig p1 dirname)) = [("@", target)] /\
  Path.isAbsolute target = true /\
  target =
    "/" ++ String.concat "/"
             (Path.normalizeSegments false (Str.split "/" dirname) ++ ["src"]) /\
  alias (resolve (viteConfig p2 dirname)) =
  alias (resolve (viteConfig p1 dirname)).
Proof.
  intros Habs target. subst target.
  cbn [viteConfig defineConfig resolve alias].
  rewrite !(resolve_dirname_src _ dirname Habs).
  repeat split; reflexivity.
Qed.

Lemma alias_target_ignores_cwd_witness :
  Path.isAbsolute "/home/app" = true /\
  alias (resolve (viteConfig buildProcess "/home/app")) =
    [("@", "/home/app/src")] /\
  alias (resolve (viteConfig shellProcess "/home/app")) =
  alias (resolve (viteConfig buildProcess "/home/app")).
Proof.
  split; [reflexivity|].
  pose proof (alias_target_ignores_cwd buildProcess shellProcess "/home/app"
                eq_refl) as H.
  cbv zeta in H. destruct H as [H1 [_ [_ H4]]].
  split; [exact H1 | exact H4].
Defined.


(** * Further properties of the code the configuration calls *)

(** ** Pieces and segments *)

Lemma isAbsolute_cons (c : ascii) (s : string) :
  Path.isAbsolute (String c s) = Ascii.eqb c "/".
Proof.
  destruct c as [[] [] [] [] [] [] [] []]; reflexivity.
Qed.

Lemma prefix_slash (c : ascii) (s : string) :
  String.prefix "/" (String c s) = Ascii.eqb c "/".
Proof.
  destruct (Ascii.eqb c "/") eqn:Hc.
  - apply Ascii.eqb_eq in Hc. subst. apply prefix_append. now exists s.
  - destruct (String.prefix "/" (String c s)) eqn:Hp; [|reflexivity].
    apply prefix_append in Hp. destruct Hp as [post Hp].
    apply Ascii.eqb_neq in Hc. simpl in Hp. congruence.
Qed.

Lemma slashFree_cons (c : ascii) (s : string) :
  slashFree (String c s) = negb (Ascii.eqb c "/") && slashFree s.
Proof.
  unfold slashFree. rewrite includes_cons, prefix_slash.
  apply negb_orb.
Qed.

Lemma split_pieces_slashFree (s : string) :
  Forall (fun piece => slashFree piece = true) (Str.split "/" s).
Proof.
  induction s as [|c s IH]; simpl.
  - now repeat constructor.
  - destruct (Ascii.eqb c "/") eqn:Hc.
    + constructor; [reflexivity | assumption].
    + destruct (Str.split "/" s) as [|piece pieces].
      * constructor; [|constructor]. now rewrite slashFree_cons, Hc.
      * inversion IH; subst. constructor; [|assumption].
        rewrite slashFree_cons, Hc. assumption.
Qed.

Lemma split_slashFree (s : string) :
  slashFree s = true -> Str.split "/" s = [s].
Proof.
  induction s as [|c s IH]; [reflexivity|].
  rewrite slashFree_cons, andb_true_iff, negb_true_iff.
  intros [Hc Hs]. simpl. now rewrite Hc, (IH Hs).
Qed.

(** Joining separator-free segments and splitting again gives them back. *)
Lemma split_concat (segments : list string) :
  segments <> [] ->
  Forall (fun segment => slashFree segment = true) segments ->
  Str.split "/" (String.concat "/" segments) = segments.
Proof.
  induction segments as [|x l IH]; [contradiction|].
  intros _ Hall. inversion Hall as [|? ? Hx Hl]; subst.
  destruct l as [|y l'].
  - now apply split_slashFree.
  - change (String.concat "/" (x :: y :: l'))
      with (x ++ String "/" (String.concat "/" (y :: l'))).
    rewrite split_append, (split_slashFree x Hx), IH;
      [reflexivity | discriminate | assumption].
Qed.

Lemma concat_snoc (segments : list string) (last : string) :
  segments <> [] ->
  String.concat "/" (segments ++ [last]) =
  String.concat "/" segments ++ "/" ++ last.
Proof.
  induction segments as [|x l IH]; [contradiction|]. intros _.
  destruct l as [|y l'].
  - reflexivity.
  - change (String.concat "/" ((x :: y :: l') ++ [last]))
      with (x ++ "/" ++ String.concat "/" ((y :: l') ++ [last])).
    rewrite IH by discriminate.
    change (String.concat "/" (x :: y :: l'))
      with (x ++ "/" ++ String.concat "/" (y :: l')).
    now rewrite !append_assoc.
Qed.

(** ** Normalization keeps only proper segments *)

Lemma properSegment_slashFree (segment : string) :
  properSegment segment = true -> slashFree segment = true.
Proof.
  unfold properSegment. rewrite !andb_true_iff. tauto.
Qed.

Lemma cleanSegment_proper (segment : string) :
  cleanSegment segment = true -> properSegment segment = true.
Proof.
  unfold cleanSegment. rewrite andb_true_iff. tauto.
Qed.

Lemma normalizeStep_proper (allow : bool) (stack : list string)
    (segment : string) :
  Forall (fun s => properSegment s = true) stack ->
  slashFree segment = true ->
  Forall (fun s => properSegment s = true)
         (Path.normalizeStep allow stack segment).
Proof.
  intros Hstack Hseg. unfold Path.normalizeStep.
  destruct (String.eqb segment "") eqn:He; [assumption|].
  destruct (String.eqb segment ".") eqn:Hd; [assumption|]. cbn [orb].
  destruct (String.eqb segment "..") eqn:Hp.
  - destruct stack as [|top below].
    + destruct allow; repeat constructor.
    + inversion Hstack; subst.
      destruct (String.eqb top ".."); [|assumption].
      destruct allow; [|assumption]. now constructor.
  - constructor; [|assumption]. unfold properSegment.
    now rewrite He, Hd, Hseg.
Qed.

Lemma normalizeStep_clean (stack : list string) (segment : string) :
  Forall (fun s => cleanSegment s = true) stack ->
  slashFree segment = true ->
  Forall (fun s => cleanSegment s = true)
         (Path.normalizeStep false stack segment).
Proof.
  intros Hstack Hseg. unfold Path.normalizeStep.
  destruct (String.eqb segment "") eqn:He; [assumption|].
  destruct (String.eqb segment ".") eqn:Hd; [assumption|]. cbn [orb].
  destruct (String.eqb segment "..") eqn:Hp.
  - destruct stack as [|top below]; [constructor|].
    inversion Hstack; subst. now destruct (String.eqb top "..").
  - constructor; [|assumption]. unfold cleanSegment, properSegment.
    now rewrite He, Hd, Hp, Hseg.
Qed.

Lemma normalizeSegments_proper (allow : bool) (segments : list string) :
  Forall (fun s => slashFree s = true) segments ->
  Forall (fun s => properSegment s = true)
         (Path.normalizeSegments allow segments).
Proof.
  intros Hall. unfold Path.normalizeSegments. apply Forall_rev.
  assert (Hnil : Forall (fun s => properSegment s = true) [])
    by constructor.
  revert Hnil. generalize (@nil string) as stack.
  induction Hall as [|x l Hx Hl IH]; intros stack Hstack; simpl.
  - assumption.
  - apply IH. now apply normalizeStep_proper.
Qed.

Lemma normalizeSegments_clean (segments : list string) :
  Forall (fun s => slashFree s = true) segments ->
  Forall (fun s => cleanSegment s = true)
         (Path.normalizeSegments false segments).
Proof.
  intros Hall. unfold Path.normalizeSegments. apply Forall_rev.
  assert (Hnil : Forall (fun s => cleanSegment s = true) [])
    by constructor.
  revert Hnil. generalize (@nil string) as stack.
  induction Hall as [|x l Hx Hl IH]; intros stack Hstack; simpl.
  - assumption.
  - apply IH. now apply normalizeStep_clean.
Qed.

(** Clean segments are all kept, in order. *)
Lemma fold_normalizeStep_clean (segments stack : list string) :
  Forall (fun s => cleanSegment s = true) segments ->
  fold_left (Path.normalizeStep false) segments stack =
  (rev segments ++ stack)%list.
Proof.
  intros Hall. revert stack.
  induction Hall as [|x l Hx Hl IH]; intros stack; simpl; [reflexivity|].
  rewrite IH, <- app_assoc. f_equal.
  unfold cleanSegment, properSegment in Hx.
  rewrite !andb_true_iff, !negb_true_iff in Hx.
  destruct Hx as [[[He Hd] _] Hp].
  unfold Path.normalizeStep. now rewrite He, Hd, Hp.
Qed.

Lemma normalizeSegments_clean_id (segments : list string) :
  Forall (fun s => cleanSegment s = true) segments ->
  Path.normalizeSegments false segments = segments.
Proof.
  intros Hall. unfold Path.normalizeSegments.
  rewrite (fold_normalizeStep_clean _ _ Hall), app_nil_r.
  apply rev_involutive.
Qed.

(** ** The loop of resolve *)

Lemma existsb_rev_eq (f : string -> bool) (l : list string) :
  existsb f (rev l) = existsb f l.
Proof.
  induction l as [|x l IH]; [reflexivity|]. simpl.
  rewrite existsb_app, IH. simpl. rewrite orb_false_r. apply orb_comm.
Qed.

(** The loop reports an absolute path exactly when the working directory
    or one of the arguments is absolute. *)
Lemma resolveLoop_flag (cwd : string) (paths : list string) (acc : string) :
  snd (Path.resolveLoop cwd paths acc) =
  Path.isAbsolute cwd || existsb Path.isAbsolute paths.
Proof.
  revert acc; induction paths as [|path earlier IH]; intros acc; simpl.
  - rewrite orb_false_r.
    destruct (String.eqb_spec cwd "") as [->|_]; reflexivity.
  - destruct (String.eqb_spec path "") as [->|_].
    + now rewrite IH.
    + destruct (Path.isAbsolute path) eqn:Habs.
      * now rewrite orb_true_r.
      * now rewrite IH.
Qed.

(** Once an argument is absolute the loop never reads the working
    directory. *)
Lemma resolveLoop_ignores_cwd (cwd1 cwd2 : string) (paths : list string)
    (acc : string) :
  existsb Path.isAbsolute paths = true ->
  Path.resolveLoop cwd1 paths acc = Path.resolveLoop cwd2 paths acc.
Proof.
  revert acc; induction paths as [|path earlier IH]; intros acc; simpl.
  - discriminate.
  - destruct (String.eqb_spec path "") as [->|_].
    + intros H. now apply IH.
    + destruct (Path.isAbsolute path); [reflexivity|].
      intros H. now apply IH.
Qed.

Lemma concat_proper_relative (segments : list string) :
  Forall (fun s => properSegment s = true) segments ->
  Path.isAbsolute (String.concat "/" segments) = false.
Proof.
  intros Hall. destruct Hall as [|s l Hs Hl]; [reflexivity|].
  destruct s as [|c s']; [discriminate|].
  apply properSegment_slashFree in Hs.
  rewrite slashFree_cons, andb_true_iff, negb_true_iff in Hs.
  destruct Hs as [Hc _].
  destruct l; cbn [String.concat String.append];
    now rewrite isAbsolute_cons.
Qed.

Lemma relative_result (resolvedPath : string) :
  Path.isAbsolute
    (let normalized := Path.normalizeString resolvedPath true in
     if String.eqb normalized "" then "." else normalized) = false.
Proof.
  cbv zeta. destruct (String.eqb _ ""); [reflexivity|].
  apply concat_proper_relative, normalizeSegments_proper,
    split_pieces_slashFree.
Qed.

Lemma normalizeSegments_between_empty (segments : list string) :
  Path.normalizeSegments false ("" :: segments ++ [""]) =
  Path.normalizeSegments false segments.
Proof.
  unfold Path.normalizeSegments. cbn [fold_left].
  now rewrite fold_left_app.
Qed.

Lemma resolve_single_absolute (cwd rest : string) :
  Path.resolve cwd [String "/" rest] =
  "/" ++ String.concat "/"
           (Path.normalizeSegments false (Str.split "/" rest)).
Proof.
  unfold Path.resolve. cbn [rev app Path.resolveLoop].
  rewrite isAbsolute_cons. cbn [String.eqb Ascii.eqb Bool.eqb negb].
  unfold Path.normalizeString.
  change (String "/" rest ++ "/" ++ "")
    with (String "/" (rest ++ String "/" "")).
  cbn [Str.split]. rewrite Ascii.eqb_refl, split_append.
  change (Str.split "/" "") with [""].
  now rewrite normalizeSegments_between_empty.
Qed.

Lemma normalize_split_concat (segments : list string) :
  Forall (fun s => cleanSegment s = true) segments ->
  Path.normalizeSegments false (Str.split "/" (String.concat "/" segments)) =
  segments.
Proof.
  intros Hall. destruct segments as [|x l]; [reflexivity|].
  rewrite split_concat; [now apply normalizeSegments_clean_id | discriminate |].
  eapply Forall_impl; [|exact Hall].
  intros s Hs. now apply properSegment_slashFree, cleanSegment_proper.
Qed.

(** ** Properties of resolve *)

(** X1. When one of its arguments is absolute, resolve gives the same path
    in every working directory. *)
Theorem resolve_ignores_cwd (cwd1 cwd2 : string) (paths : list string) :
  existsb Path.isAbsolute paths = true ->
  Path.resolve cwd1 paths = Path.resolve cwd2 paths.
Proof.
  intros Habs. unfold Path.resolve.
  rewrite (resolveLoop_ignores_cwd cwd1 cwd2); [reflexivity|].
  now rewrite existsb_rev_eq.
Qed.

Lemma resolve_ignores_cwd_witness :
  existsb Path.isAbsolute ["docs"; "/srv/site"; ""; "../assets"] = true /\
  Path.resolve "/work" ["docs"; "/srv/site"; ""; "../assets"] =
  Path.resolve "relative/dir" ["docs"; "/srv/site"; ""; "../assets"].
Proof.
  split; [reflexivity|].
  apply (resolve_ignores_cwd "/work" "relative/dir"
           ["docs"; "/srv/site"; ""; "../assets"]).
  reflexivity.
Defined.

(** X2. The path resolve returns is absolute exactly when the working
    directory or one of the arguments is absolute. *)
Theorem resolve_isAbsolute (cwd : string) (paths : list string) :
  Path.isAbsolute (Path.resolve cwd paths) =
  Path.isAbsolute cwd || existsb Path.isAbsolute paths.
Proof.
  unfold Path.resolve.
  pose proof (resolveLoop_flag cwd (rev paths) "") as Hflag.
  rewrite existsb_rev_eq in Hflag. rewrite <- Hflag.
  destruct (Path.resolveLoop cwd (rev paths) "") as [rp abs].
  destruct abs; [reflexivity|]. apply relative_result.
Qed.

(** X3. An absolute result of resolve is normalized: a slash followed by
    segments joined by single slashes, none of them empty, the current
    directory or the parent directory. *)
Theorem resolve_absolute_normalized (cwd : string) (paths : list string) :
  Path.isAbsolute (Path.resolve cwd paths) = true ->
  exists segments,
    Path.resolve cwd paths = "/" ++ String.concat "/" segments /\
    Forall (fun s => cleanSegment s = true) segments.
Proof.
  unfold Path.resolve.
  destruct (Path.resolveLoop cwd (rev paths) "") as [rp abs].
  destruct abs.
  - intros _. eexists. split; [reflexivity|].
    apply normalizeSegments_clean, split_pieces_slashFree.
  - rewrite relative_result. discriminate.
Qed.

Lemma resolve_absolute_normalized_witness :
  Path.isAbsolute (Path.resolve "/work" ["a//b/./c"; "../../d/"]) = true /\
  exists segments,
    Path.resolve "/work" ["a//b/./c"; "../../d/"] =
    "/" ++ String.concat "/" segments /\
    Forall (fun s => cleanSegment s = true) segments.
Proof.
  split; [reflexivity|].
  apply (resolve_absolute_normalized "/work" ["a//b/./c"; "../../d/"]).
  reflexivity.
Defined.

(** X4. Resolving an absolute result again, in any working directory,
    gives it back. *)
Theorem resolve_idempotent (cwd cwd' : string) (paths : list string) :
  Path.isAbsolute (Path.resolve cwd paths) = true ->
  Path.resolve cwd' [Path.resolve cwd paths] = Path.resolve cwd paths.
Proof.
  intros Habs.
  destruct (resolve_absolute_normalized cwd paths Habs)
    as [segments [-> Hclean]].
  change ("/" ++ String.concat "/" segments)
    with (String "/" (String.concat "/" segments)).
  rewrite resolve_single_absolute, (normalize_split_concat _ Hclean).
  reflexivity.
Qed.

Lemma resolve_idempotent_witness :
  Path.isAbsolute (Path.resolve "/work" ["a/../b"; "./c/"]) = true /\
  Path.resolve "/tmp" [Path.resolve "/work" ["a/../b"; "./c/"]] =
  Path.resolve "/work" ["a/../b"; "./c/"].
Proof.
  split; [reflexivity|].
  apply (resolve_idempotent "/work" "/tmp" ["a/../b"; "./c/"]).
  reflexivity.
Defined.

(** ** Properties of the configuration *)

(** X5. For an absolute module directory the target of the @ alias is a
    normalized path whose last segment is src: no empty, current-directory
    or parent-directory segment, and it ends in /src. *)
Theorem alias_target_normalized (proc : Process) (dirname : string) :
  Path.isAbsolute dirname = true ->
  exists segments,
    alias (resolve (viteConfig proc dirname)) =
      [("@", "/" ++ String.concat "/" (segments ++ ["src"]))] /\
    Forall (fun s => cleanSegment s = true) (segments ++ ["src"]) /\
    Str.endsWith "/src" ("/" ++ String.concat "/" (segments ++ ["src"])) = true.
Proof.
  intros Habs.
  exists (Path.normalizeSegments false (Str.split "/" dirname)).
  cbn [viteConfig defineConfig resolve alias].
  rewrite (resolve_dirname_src _ dirname Habs).
  split; [reflexivity|]. split.
  - apply Forall_app. split.
    + apply normalizeSegments_clean, split_pieces_slashFree.
    + now repeat constructor.
  - apply endsWith_append.
    destruct (Path.normalizeSegments false (Str.split "/" dirname))
      as [|x l] eqn:Hsegs.
    + now exists "".
    + exists ("/" ++ String.concat "/" (x :: l)).
      rewrite concat_snoc by discriminate.
      now rewrite append_assoc.
Qed.

Lemma alias_target_normalized_witness :
  Path.isAbsolute "/home//app/./web/../" = true /\
  exists segments,
    alias (resolve (viteConfig shellProcess "/home//app/./web/../")) =
      [("@", "/" ++ String.concat "/" (segments ++ ["src"]))] /\
    Forall (fun s => cleanSegment s = true) (segments ++ ["src"]) /\
    Str.endsWith "/src" ("/" ++ String.concat "/" (segments ++ ["src"])) = true.
Proof.
  split; [reflexivity|].
  apply (alias_target_normalized shellProcess "/home//app/./web/../").
  reflexivity.
Defined.

(** X6. The search of the exclusion pattern is unanchored: a name that is
    matched stays matched whatever text is put before or after it. *)
Theorem match_survives_context (pattern name pre post : string) :
  matchesPattern pattern name = true ->
  matchesPattern pattern (pre ++ name ++ post) = true.
Proof.
  unfold matchesPattern. destruct (RegExp.compile pattern) as [r|];
    [|discriminate].
  rewrite !test_Instance.
  intros [p [pre' [mid [post' [Hin [-> Hi]]]]]].
  exists p, (pre ++ pre'), mid, (post' ++ post).
  split; [assumption|]. split; [|assumption].
  now rewrite !append_assoc.
Qed.

Lemma match_survives_context_witness :
  matchesPattern configuredPattern "route.model.ts" = true /\
  matchesPattern configuredPattern ("old-" ++ "route.model.ts" ++ ".bak") = true.
Proof.
  split; [reflexivity|].
  apply (match_survives_context configuredPattern "route.model.ts" "old-" ".bak").
  reflexivity.
Defined.

(** ** References that use the alias *)

Lemma uses_at_inv (importee : string) :
  Alias.uses "@" importee = true ->
  importee = "@" \/ exists rest, importee = "@/" ++ rest.
Proof.
  unfold Alias.uses, Str.startsWith.
  rewrite orb_true_iff, String.eqb_eq, prefix_append.
  intros [H | [rest H]]; [now left | right; now exists rest].
Qed.

Lemma concat_app (l1 l2 : list string) :
  l1 <> [] -> l2 <> [] ->
  String.concat "/" (l1 ++ l2) =
  String.concat "/" l1 ++ "/" ++ String.concat "/" l2.
Proof.
  intros H1 H2. induction l1 as [|x l IH]; [contradiction|].
  destruct l as [|y l'].
  - destruct l2 as [|z l2']; [contradiction | reflexivity].
  - change (String.concat "/" ((x :: y :: l') ++ l2))
      with (x ++ "/" ++ String.concat "/" ((y :: l') ++ l2)).
    rewrite IH by discriminate.
    change (String.concat "/" (x :: y :: l'))
      with (x ++ "/" ++ String.concat "/" (y :: l')).
    now rewrite !append_assoc.
Qed.

Lemma no_parent_iff (segments : list string) :
  existsb (String.eqb "..") segments = false <-> ~ In ".." segments.
Proof.
  induction segments as [|x l IH]; cbn [existsb In].
  - tauto.
  - rewrite orb_false_iff, IH, String.eqb_neq. intuition congruence.
Qed.

(** A parent-directory segment kept by the relative normalization is never
    removed again. *)
Lemma parent_kept_step (stack : list string) (segment : string) :
  In ".." stack -> In ".." (Path.normalizeStep true stack segment).
Proof.
  intros Hin. unfold Path.normalizeStep.
  destruct (String.eqb segment "" || String.eqb segment "."); [assumption|].
  destruct (String.eqb segment "..").
  - destruct stack as [|top below]; [contradiction|].
    destruct (String.eqb_spec top "..") as [->|Hne]; [now right|].
    destruct Hin as [Heq | Hin]; [congruence | assumption].
  - now right.
Qed.

Lemma parent_kept (segments stack : list string) :
  In ".." stack ->
  In ".." (fold_left (Path.normalizeStep true) segments stack).
Proof.
  revert stack; induction segments as [|x l IH]; intros stack Hin; simpl.
  - assumption.
  - now apply IH, parent_kept_step.
Qed.

(** While the relative normalization keeps no parent-directory segment, it
    never looks below the segments it has pushed itself: the same steps on
    top of a base leave the base alone. *)
Lemma fold_on_base (segments stack base : list string) :
  ~ In ".." stack ->
  ~ In ".." (fold_left (Path.normalizeStep true) segments stack) ->
  fold_left (Path.normalizeStep false) segments (stack ++ base)%list =
  (fold_left (Path.normalizeStep true) segments stack ++ base)%list.
Proof.
  revert stack; induction segments as [|x l IH]; intros stack Hs Hf;
    [reflexivity|].
  cbn [fold_left] in *.
  assert (Hstep : Path.normalizeStep false (stack ++ base)%list x =
                  (Path.normalizeStep true stack x ++ base)%list /\
                  ~ In ".." (Path.normalizeStep true stack x)).
  { split.
    - unfold Path.normalizeStep in *.
      destruct (String.eqb x "" || String.eqb x "."); [reflexivity|].
      destruct (String.eqb x "..").
      + destruct stack as [|top below].
        * exfalso. apply Hf, parent_kept. now left.
        * cbn [app].
          destruct (String.eqb_spec top "..") as [->|_]; [|reflexivity].
          exfalso. apply Hs. now left.
      + reflexivity.
    - intros Hin. apply Hf. now apply parent_kept. }
  destruct Hstep as [-> Hs']. now apply IH.
Qed.

(** Below a clean base, segments that do not climb out normalize on their
    own. *)
Lemma normalizeSegments_below (base segments : list string) :
  Forall (fun s => cleanSegment s = true) base ->
  existsb (String.eqb "..") (Path.normalizeSegments true segments) = false ->
  Path.normalizeSegments false (base ++ segments)%list =
  (base ++ Path.normalizeSegments true segments)%list.
Proof.
  intros Hbase Hno. apply no_parent_iff in Hno.
  unfold Path.normalizeSegments in *.
  rewrite fold_left_app, (fold_normalizeStep_clean _ _ Hbase), app_nil_r.
  rewrite <- (app_nil_l (rev base)) at 1.
  rewrite fold_on_base.
  - now rewrite rev_app_distr, rev_involutive.
  - intros [].
  - intros Hin. apply Hno. now apply in_rev in Hin.
Qed.

Lemma rewritten_tail (importee : string) :
  Alias.uses "@" importee = true ->
  Str.slice 1 importee = "" \/
  exists rest, Str.slice 1 importee = String "/" rest.
Proof.
  intros H. destruct (uses_at_inv _ H) as [-> | [rest ->]].
  - now left.
  - right. now exists rest.
Qed.

(** The normal form of a clean absolute directory followed by the tail of a
    reference. *)
Lemma resolve_below (cwd : string) (base : list string) (tail : string) :
  base <> [] ->
  Forall (fun s => cleanSegment s = true) base ->
  tail = "" \/ (exists rest, tail = String "/" rest) ->
  existsb (String.eqb "..")
    (Path.normalizeSegments true (Str.split "/" tail)) = false ->
  Path.resolve cwd [("/" ++ String.concat "/" base) ++ tail] =
  "/" ++ String.concat "/"
           (base ++ Path.normalizeSegments true (Str.split "/" tail)).
Proof.
  intros Hne Hclean Htail Hno.
  assert (Hfree : Forall (fun s => slashFree s = true) base).
  { eapply Forall_impl; [|exact Hclean].
    intros s Hs. now apply properSegment_slashFree, cleanSegment_proper. }
  change (("/" ++ String.concat "/" base) ++ tail)
    with (String "/" (String.concat "/" base ++ tail)).
  rewrite resolve_single_absolute. do 2 f_equal.
  destruct Htail as [-> | [rest ->]].
  - rewrite append_empty_r, (normalize_split_concat _ Hclean).
    symmetry. apply app_nil_r.
  - rewrite split_append, (split_concat _ Hne Hfree).
    change (Str.split "/" (String "/" rest))
      with ("" :: Str.split "/" rest) in *.
    change (Path.normalizeSegments true ("" :: Str.split "/" rest))
      with (Path.normalizeSegments true (Str.split "/" rest)) in *.
    now apply normalizeSegments_below.
Qed.

Lemma within_below (base rest : list string) :
  base <> [] ->
  Alias.within ("/" ++ String.concat "/" base)
    ("/" ++ String.concat "/" (base ++ rest)) = true.
Proof.
  intros Hne. unfold Alias.within, Str.startsWith.
  destruct rest as [|r rest'].
  - now rewrite app_nil_r, String.eqb_refl.
  - rewrite concat_app by (assumption || discriminate).
    apply orb_true_iff. right. apply prefix_append.
    exists (String.concat "/" (r :: rest')).
    cbn [String.append]. now rewrite !append_assoc.
Qed.

(** C5, as stated, fails at the reference @/../escape: it uses the prefix
    and resolves to a path that is neither the source directory nor under
    it. *)
Lemma alias_escape_counterexample :
  Alias.uses "@" "@/../escape" = true /\
  ~ (exists path,
       Alias.resolveImport (cwd buildProcess)
         (alias (resolve (viteConfig buildProcess "/home/app")))
         "@/../escape" = Some path /\
       Alias.within "/home/app/src" path = true).
Proof.
  split; [reflexivity|]. intros [path [Hres Hin]].
  assert (Hpath : path = "/home/app/escape")
    by (vm_compute in Hres; congruence).
  subst path. discriminate Hin.
Qed.

(** C5, amended.  The configuration declares exactly one path alias, from
    the logical prefix @ to the src directory beside the configuration file:
    for an absolute module directory, its normalized path followed by src.
    Every module reference that uses the prefix, @ itself or @ continued with
    a slash, and whose remainder does not climb out with parent-directory
    segments, resolves to that directory or to a path under it: the
    directory followed by the normalized remainder. *)
Theorem single_alias_to_src (proc : Process) (dirname importee : string) :
  Path.isAbsolute dirname = true ->
  Alias.uses "@" importee = true ->
  Alias.escapes "@" importee = false ->
  let srcSegments :=
    (Path.normalizeSegments false (Str.split "/" dirname) ++ ["src"])%list in
  let srcDir := "/" ++ String.concat "/" srcSegments in
  let table := alias (resolve (viteConfig proc dirname)) in
  table = [("@", srcDir)] /\
  exists path,
    Alias.resolveImport (cwd proc) table importee = Some path /\
    path =
      "/" ++ String.concat "/"
               (srcSegments ++
                Path.normalizeSegments true
                  (Str.split "/" (Str.slice 1 importee))) /\
    Alias.within srcDir path = true.
Proof.
  intros Habs Huses Hstay. cbv zeta.
  cbn [viteConfig defineConfig resolve alias].
  rewrite (resolve_dirname_src _ dirname Habs).
  set (srcSegments :=
         (Path.normalizeSegments false (Str.split "/" dirname) ++ ["src"])%list).
  assert (Hne : srcSegments <> [])
    by (unfold srcSegments; intros H; now apply app_eq_nil in H).
  assert (Hclean : Forall (fun s => cleanSegment s = true) srcSegments).
  { apply Forall_app. split.
    - apply normalizeSegments_clean, split_pieces_slashFree.
    - now repeat constructor. }
  split; [reflexivity|]. eexists. split; [|split; [reflexivity|]].
  - unfold Alias.resolveImport, Alias.rewrite. rewrite Huses.
    change (String.length "@") with 1. f_equal.
    apply resolve_below; try assumption.
    now apply rewritten_tail.
  - now apply within_below.
Qed.

Lemma single_alias_to_src_witness :
  Path.isAbsolute "/home/app" = true /\
  Alias.uses "@" "@/components/../lib/./hono" = true /\
  Alias.escapes "@" "@/components/../lib/./hono" = false /\
  alias (resolve (viteConfig buildProcess "/home/app")) =
    [("@", "/home/app/src")] /\
  exists path,
    Alias.resolveImport (cwd buildProcess)
      (alias (resolve (viteConfig buildProcess "/home/app")))
      "@/components/../lib/./hono" = Some path /\
    path = "/home/app/src/lib/hono" /\
    Alias.within "/home/app/src" path = true.
Proof.
  do 3 (split; [reflexivity|]).
  exact (single_alias_to_src buildProcess "/home/app"
           "@/components/../lib/./hono" eq_refl eq_refl eq_refl).
Defined.
